(** * Sysmon analyzer: a shallow embedding of [src/event_parser.py]

    The script loads a Sysmon XML export, turns every [Event] element into a
    flat record, counts the event types, picks out the records whose image
    looks suspicious and renders everything as English sentences.

    Conventions of the embedding.
    - A Python [str] is a Rocq [string], one [ascii] per character;
      lower-casing acts on the letters [A] to [Z].
    - A value that is either a [str] or Python's [None] is an
      [option string], Python's [None] being the constructor [None].
    - Code that may raise returns a [result]; the exceptions are the ones the
      script can meet.
    - [xml.etree.ElementTree] elements are finite trees carrying the expanded
      tag ["{uri}local"], the attribute dictionary, the text and the children.
    - A pandas [DataFrame] built from a list of dictionaries is its list of
      column labels together with its rows. *)

From Stdlib Require Import List String Ascii Bool Arith Lia NArith.
From Stdlib Require Import Permutation Sorted.
Import ListNotations.
Set Warnings "-register-all".
Local Open Scope list_scope.
Local Open Scope string_scope.

(** ** Python values and exceptions *)

Module Py.

Inductive exn : Type :=
| AttributeError            (* attribute access on [None] *)
| KeyError (key : string)   (* a label that is not a column *)
| FileNotFoundError
| ParseError.               (* [xml.etree.ElementTree.ParseError] *)

Inductive result (A : Type) : Type :=
| Ok (a : A)
| Raise (e : exn).
Arguments Ok {A} a.
Arguments Raise {A} e.

Definition bind {A B : Type} (c : result A) (k : A -> result B) : result B :=
  match c with
  | Ok a => k a
  | Raise e => Raise e
  end.

(** [[f(x) for x in xs]]: the first exception aborts the comprehension. *)
Fixpoint comprehension {A B : Type} (f : A -> result B) (xs : list A)
  : result (list B) :=
  match xs with
  | [] => Ok []
  | x :: xs' =>
      bind (f x) (fun y =>
      bind (comprehension f xs') (fun ys => Ok (y :: ys)))
  end.

(** What an f-string writes for a value that is a [str] or [None]. *)
Definition format (v : option string) : string :=
  match v with
  | Some s => s
  | None => "None"
  end.

(** [d.get(k, default)] on a dictionary whose keys are all strings; the
    key looked up may be [None], which is then simply not a key. *)
Fixpoint lookup (k : string) (d : list (string * string)) : option string :=
  match d with
  | [] => None
  | (k', v) :: d' => if String.eqb k k' then Some v else lookup k d'
  end.

Definition dict_get (d : list (string * string)) (k : option string)
           (default : option string) : option string :=
  match k with
  | None => default
  | Some k =>
      match lookup k d with
      | Some v => Some v
      | None => default
      end
  end.

(** [s * n] *)
Fixpoint repeat_str (s : string) (n : nat) : string :=
  match n with
  | O => ""
  | S n' => s ++ repeat_str s n'
  end.

(** [str.lower] on the ASCII letters. *)
Definition lower_char (c : ascii) : ascii :=
  let n := nat_of_ascii c in
  if Nat.leb 65 n && Nat.leb n 90 then ascii_of_nat (n + 32) else c.

Fixpoint lower (s : string) : string :=
  match s with
  | EmptyString => EmptyString
  | String c s' => String (lower_char c) (lower s')
  end.

(** [needle in s] *)
Fixpoint contains (needle s : string) : bool :=
  String.prefix needle s ||
  match s with
  | EmptyString => false
  | String _ s' => contains needle s'
  end.

End Py.
Import Py.

Notation "x <- c ;; k" := (bind c (fun x => k))
  (at level 61, c at next level, right associativity).

Definition newline : string := String (ascii_of_nat 10) EmptyString.

(** ** xml.etree.ElementTree *)

Module ET.

Inductive Element : Type :=
  mkElement {
    tag : string;
    attrib : list (string * string);
    text : option string;
    children : list Element
  }.

(** [e.get(name)] *)
Definition get (e : Element) (name : string) : option string :=
  lookup name (attrib e).

(** [e.find(path)] for a path that is one qualified name: the first child
    with that tag, or [None]. *)
Definition find (qname : string) (e : Element) : option Element :=
  List.find (fun c => String.eqb (tag c) qname) (children e).

(** [e.findall(path)] for a path that is one qualified name: the children
    with that tag, in document order. *)
Definition findall (qname : string) (e : Element) : list Element :=
  filter (fun c => String.eqb (tag c) qname) (children e).

(** [e.iter()]: the element itself, then its subtree in document order. *)
Fixpoint iter (e : Element) : list Element :=
  e :: (fix below (cs : list Element) : list Element :=
          match cs with
          | [] => []
          | c :: cs' => (iter c ++ below cs')%list
          end) (children e).

(** [e.findall(".//name")]: ElementPath walks [e.iter(name)] and skips [e]
    itself (the test [if e is not elem]); [e] is the first element that
    [iter] yields, and no element below [e] is the object [e]. *)
Definition findall_descendants (qname : string) (e : Element) : list Element :=
  filter (fun c => String.eqb (tag c) qname) (tl (iter e)).

(** [text] of the result of a [find]: reading an attribute of [None]
    raises. *)
Definition text_of (found : option Element) : result (option string) :=
  match found with
  | Some e => Ok (text e)
  | None => Raise AttributeError
  end.

End ET.
Import ET.

(** ** The script *)

(** [NS]: the one prefix the paths use. *)
Definition NS : list (string * string) :=
  [("ev", "http://schemas.microsoft.com/win/2004/08/events/event")].

(** The tag a path ["ev:local"] stands for under [NS]. *)
Definition ev_ (local : string) : string :=
  match lookup "ev" NS with
  | Some uri => "{" ++ uri ++ "}" ++ local
  | None => local
  end.

Definition EVENT_DESCRIPTIONS : list (string * string) :=
  [ ("1", "Process created (a program started)");
    ("2", "A process changed a file creation time");
    ("3", "Network connection created");
    ("4", "Sysmon service state changed");
    ("5", "Process terminated (a program ended)");
    ("6", "Driver loaded");
    ("7", "Image (EXE/DLL) loaded");
    ("8", "Remote thread created in another process");
    ("9", "Raw disk access");
    ("10", "Process accessed another process");
    ("11", "File created on disk");
    ("12", "Registry object created or deleted");
    ("13", "Registry value set");
    ("14", "Registry key/values renamed");
    ("15", "File stream created");
    ("22", "DNS query performed");
    ("255", "Sysmon configuration change") ].

(** The dictionary [parse_event] returns. *)
Record EventRecord : Type :=
  mkRecord {
    event_id : option string;
    description : option string;
    utc_time : option string;
    image : option string;
    process_id : option string;
    computer : option string
  }.

(** The lookup at the end of [parse_event]. *)
Definition describe (code : option string) : option string :=
  dict_get EVENT_DESCRIPTIONS code (Some "Other Sysmon event").

(** The three variables the loop over the [Data] children assigns. *)
Record DataFields : Type :=
  mkData {
    d_utc_time : option string;
    d_image : option string;
    d_proc_id : option string
  }.

Definition no_data : DataFields := mkData None None None.

(** One turn of the loop [for d in data.findall("ev:Data", NS)]. *)
Definition data_step (acc : DataFields) (d : Element) : DataFields :=
  match get d "Name" with
  | Some name =>
      if String.eqb name "UtcTime" then
        mkData (text d) (d_image acc) (d_proc_id acc)
      else if String.eqb name "Image" then
        mkData (d_utc_time acc) (text d) (d_proc_id acc)
      else if String.eqb name "ProcessId" then
        mkData (d_utc_time acc) (d_image acc) (text d)
      else acc
  | None => acc
  end.

Definition parse_event (ev : Element) : result EventRecord :=
  let system := find (ev_ "System") ev in
  let data := find (ev_ "EventData") ev in
  event_id <- match system with
              | Some s => text_of (find (ev_ "EventID") s)
              | None => Ok None
              end ;;
  computer <- match system with
              | Some s => text_of (find (ev_ "Computer") s)
              | None => Ok None
              end ;;
  let fields :=
    match data with
    | Some d => fold_left data_step (findall (ev_ "Data") d) no_data
    | None => no_data
    end in
  let description := describe event_id in
  Ok {| event_id := event_id;
        description := description;
        utc_time := d_utc_time fields;
        image := d_image fields;
        process_id := d_proc_id fields;
        computer := computer |}.

(** [row.get(key)] *)
Definition row_get (row : EventRecord) (key : string) : option string :=
  if String.eqb key "event_id" then event_id row
  else if String.eqb key "description" then description row
  else if String.eqb key "utc_time" then utc_time row
  else if String.eqb key "image" then image row
  else if String.eqb key "process_id" then process_id row
  else if String.eqb key "computer" then computer row
  else None.

Definition to_sentence (row : EventRecord) : string :=
  "At " ++ format (row_get row "utc_time")
  ++ ", on computer " ++ format (row_get row "computer") ++ ", "
  ++ format (row_get row "description") ++ ": "
  ++ format (row_get row "image") ++ " "
  ++ "(process ID " ++ format (row_get row "process_id") ++ ").".

(** ** Regular expressions, as far as the script's pattern needs them

    [Series.str.contains(pat)] searches with [re.search] ([regex=True] is the
    default).  The pattern the script builds is made of letters, digits,
    ["."] and ["|"] only, so a pattern is an alternation of sequences of
    atoms, and an atom is a literal character or the dot. *)

Module Re.

Inductive atom : Type :=
| Chr (c : ascii)
| Dot.

Definition regex : Type := list (list atom).

Fixpoint compile (pat : string) : regex :=
  match pat with
  | EmptyString => [[]]
  | String c rest =>
      let r := compile rest in
      if Ascii.eqb c "|" then [] :: r
      else
        let a := if Ascii.eqb c "." then Dot else Chr c in
        match r with
        | b :: bs => (a :: b) :: bs
        | [] => [[a]]
        end
  end.

(** The dot matches every character but the line feed. *)
Definition atom_matches (a : atom) (c : ascii) : bool :=
  match a with
  | Chr x => Ascii.eqb x c
  | Dot => negb (Ascii.eqb c (ascii_of_nat 10))
  end.

Fixpoint matches_at (b : list atom) (s : string) : bool :=
  match b with
  | [] => true
  | a :: b' =>
      match s with
      | EmptyString => false
      | String c s' => atom_matches a c && matches_at b' s'
      end
  end.

(** [re.search]: some branch matches at some position. *)
Fixpoint search (r : regex) (s : string) : bool :=
  existsb (fun b => matches_at b s) r ||
  match s with
  | EmptyString => false
  | String _ s' => search r s'
  end.

(** The characters whose meaning [compile] knows. *)
Definition plain_char (c : ascii) : bool :=
  let n := nat_of_ascii c in
  (Nat.leb 97 n && Nat.leb n 122) || (Nat.leb 48 n && Nat.leb n 57)
  || Ascii.eqb c "." || Ascii.eqb c "|".

End Re.

(** ** pandas *)

(** A row of [counts]: the two grouping keys and the size of the group. *)
Record EventTypeCount : Type :=
  mkCount {
    c_event_id : string;
    c_description : string;
    count : nat
  }.

Module Pd.

Record DataFrame : Type :=
  mkFrame {
    columns : list string;
    rows : list EventRecord
  }.

Definition record_keys : list string :=
  ["event_id"; "description"; "utc_time"; "image"; "process_id"; "computer"].

(** [pd.DataFrame(parsed)]: the columns are the keys of the dictionaries;
    an empty list has none. *)
Definition DataFrame_of (parsed : list EventRecord) : DataFrame :=
  match parsed with
  | [] => mkFrame [] []
  | _ :: _ => mkFrame record_keys parsed
  end.

Definition has_column (df : DataFrame) (label : string) : bool :=
  existsb (String.eqb label) (columns df).

(** [df[label]] *)
Definition getitem (df : DataFrame) (label : string)
  : result (list (option string)) :=
  if has_column df label
  then Ok (map (fun r => row_get r label) (rows df))
  else Raise (KeyError label).

(** [Series.notna()] *)
Definition notna (col : list (option string)) : list bool :=
  map (fun v => match v with Some _ => true | None => false end) col.

(** [Series.str.lower()]: a missing value stays missing. *)
Definition str_lower (col : list (option string)) : list (option string) :=
  map (option_map lower) col.

(** [Series.str.contains(pat, na=na)] *)
Definition str_contains (pat : string) (na : bool)
           (col : list (option string)) : list bool :=
  map (fun v => match v with
                | Some s => Re.search (Re.compile pat) s
                | None => na
                end) col.

(** [a & b] on two boolean columns of one frame. *)
Definition and_ (a b : list bool) : list bool :=
  map (fun p => fst p && snd p) (combine a b).

(** [df[mask]] *)
Definition select (df : DataFrame) (mask : list bool) : list EventRecord :=
  map fst (filter snd (combine (rows df) mask)).

(** Grouping keys, compared as Python compares tuples of strings. *)
Definition key : Type := (string * string)%type.

Definition key_compare (a b : key) : comparison :=
  match String.compare (fst a) (fst b) with
  | Eq => String.compare (snd a) (snd b)
  | c => c
  end.

Definition key_of (e : EventTypeCount) : key :=
  (c_event_id e, c_description e).

(** The key of a row; a row with a missing key belongs to no group
    ([dropna=True] is the default of [groupby]). *)
Definition group_key (r : EventRecord) : option key :=
  match row_get r "event_id", row_get r "description" with
  | Some i, Some d => Some (i, d)
  | _, _ => None
  end.

(** One more member for the group of [k]; groups are kept in ascending key
    order ([sort=True] is the default of [groupby]). *)
Fixpoint bump (k : key) (groups : list EventTypeCount) : list EventTypeCount :=
  match groups with
  | [] => [mkCount (fst k) (snd k) 1]
  | e :: groups' =>
      match key_compare k (key_of e) with
      | Eq => mkCount (c_event_id e) (c_description e) (S (count e)) :: groups'
      | Lt => mkCount (fst k) (snd k) 1 :: e :: groups'
      | Gt => e :: bump k groups'
      end
  end.

Definition add_row (groups : list EventTypeCount) (r : EventRecord)
  : list EventTypeCount :=
  match group_key r with
  | Some k => bump k groups
  | None => groups
  end.

(** The first label of [by] that is no column is the [KeyError]. *)
Fixpoint check_keys (df : DataFrame) (by_ : list string) : result unit :=
  match by_ with
  | [] => Ok tt
  | k :: by' => if has_column df k then check_keys df by' else Raise (KeyError k)
  end.

(** [df.groupby(["event_id", "description"]).size().reset_index(name="count")] *)
Definition groupby_size (df : DataFrame) : result (list EventTypeCount) :=
  _ <- check_keys df ["event_id"; "description"] ;;
  Ok (fold_left add_row (rows df) []).

End Pd.
Import Pd.

(** ** The body of the script *)

Definition suspicious_images : list string :=
  [ "cmd.exe"; "powershell.exe"; "pwsh.exe"; "wmic.exe"; "rundll32.exe";
    "regsvr32.exe" ].

(** ["|".join(x.lower() for x in suspicious_images)] *)
Definition suspicious_pattern : string :=
  String.concat "|" (map lower suspicious_images).

(** Step 5: the frame [interesting]. *)
Definition interesting (df : DataFrame) : result (list EventRecord) :=
  present <- getitem df "image" ;;
  images <- getitem df "image" ;;
  let mask :=
    and_ (notna present)
         (str_contains suspicious_pattern false (str_lower images)) in
  Ok (select df mask).

(** What the script computes and what it writes. *)
Record Outcome : Type :=
  mkOutcome {
    o_parsed : list EventRecord;
    o_counts : list EventTypeCount;
    o_interesting : list EventRecord;
    o_report : string
  }.

Definition bullets (sentences : list string) : string :=
  String.concat "" (map (fun line => "- " ++ line ++ newline) sentences).

Section Script.

(** The file system: the contents of the file at a path, if there is one. *)
Variable read_file : string -> option string.

(** The XML parser: the root element of a well-formed document. *)
Variable XMLParser : string -> option Element.

(** [sort_values("count", ascending=False)]: pandas sorts with its default
    [kind="quicksort"], which promises a sorted permutation and nothing
    about rows with equal counts. *)
Variable sort_values : list EventTypeCount -> list EventTypeCount.

(** [counts.to_string(index=False)] *)
Variable to_string : list EventTypeCount -> string.

Definition load_sysmon_events (xml_path : string) : result (list Element) :=
  match read_file xml_path with
  | None => Raise FileNotFoundError
  | Some document =>
      match XMLParser document with
      | None => Raise ParseError
      | Some root => Ok (findall_descendants (ev_ "Event") root)
      end
  end.

(** Step 3: the frame [counts]. *)
Definition counts (df : DataFrame) : result (list EventTypeCount) :=
  groups <- groupby_size df ;;
  Ok (sort_values groups).

Definition report (counts : list EventTypeCount)
           (interesting all_ : list EventRecord) : string :=
  "Sysmon Human-Readable Report" ++ newline
  ++ repeat_str "=" 40 ++ newline ++ newline
  ++ "Top event types:" ++ newline
  ++ to_string counts
  ++ newline ++ newline
  ++ "Interesting / potentially suspicious events:" ++ newline
  ++ bullets (map to_sentence interesting)
  ++ newline ++ "All events (full log in sentences):" ++ newline
  ++ bullets (map to_sentence all_).

(** Steps 2 to 5 on the loaded events, and the text step 6 writes.  The
    calls to [print], the creation of the directory and the writing of the
    file are not part of it. *)
Definition analyse (events : list Element) : result Outcome :=
  parsed <- comprehension parse_event events ;;
  let df := DataFrame_of parsed in
  cnt <- counts df ;;
  sus <- interesting df ;;
  Ok (mkOutcome parsed cnt sus (report cnt sus (rows df))).

(** The run up to the text of the report: loading, then [analyse]. *)
Definition main (xml_path : string) : result Outcome :=
  events <- load_sysmon_events xml_path ;;
  analyse events.

End Script.

(** ** Vocabulary of the statements *)

(** The sum of the [count] column. *)
Definition total (cs : list EventTypeCount) : nat :=
  list_sum (map count cs).

Definition key_lt (a b : key) : Prop := key_compare a b = Lt.

(** Non-increasing in [count]. *)
Definition count_ge (a b : EventTypeCount) : Prop := count b <= count a.

(** What [sort_values("count", ascending=False)] promises whatever the sorting
    algorithm: the rows are the same and the counts do not increase. *)
Definition sorts_by_count
           (sort_values : list EventTypeCount -> list EventTypeCount) : Prop :=
  forall l, Permutation (sort_values l) l /\ Sorted count_ge (sort_values l).

(** The rows of a given count. *)
Definition with_count (c : nat) (l : list EventTypeCount) : list EventTypeCount :=
  filter (fun e => Nat.eqb (count e) c) l.

(** A stable sort leaves rows of equal count in the order it found them. *)
Definition stable
           (sort_values : list EventTypeCount -> list EventTypeCount) : Prop :=
  forall c l, with_count c (sort_values l) = with_count c l.

(** A sort to run the statements on: insertion from the right, a row going
    in front of the rows that do not exceed it. *)
Fixpoint insert_desc (e : EventTypeCount) (l : list EventTypeCount)
  : list EventTypeCount :=
  match l with
  | [] => [e]
  | x :: l' =>
      if Nat.leb (count x) (count e) then e :: x :: l'
      else x :: insert_desc e l'
  end.

Definition insertion_sort (l : list EventTypeCount) : list EventTypeCount :=
  fold_right insert_desc [] l.

(** [sort_values("count", ascending=False)]: the rows are ordered by their
    [count], larger counts first.  pandas sorts with [kind="quicksort"],
    which fixes no order among rows of equal count; [before e x] stands for
    what the sorting routine does with two such rows, [e] being the one that
    came earlier in the frame.  A row is put in front of the first row that
    has a smaller count, or an equal count and loses to it under [before]. *)
Definition goes_first (before : EventTypeCount -> EventTypeCount -> bool)
           (e x : EventTypeCount) : bool :=
  Nat.ltb (count x) (count e)
  || (Nat.eqb (count x) (count e) && before e x).

Fixpoint insert_by (before : EventTypeCount -> EventTypeCount -> bool)
         (e : EventTypeCount) (l : list EventTypeCount) : list EventTypeCount :=
  match l with
  | [] => [e]
  | x :: l' =>
      if goes_first before e x then e :: x :: l'
      else x :: insert_by before e l'
  end.

Definition sort_values_by (before : EventTypeCount -> EventTypeCount -> bool)
           (l : list EventTypeCount) : list EventTypeCount :=
  fold_right (insert_by before) [] l.

(** Two ways with rows of equal count: the earlier row stays in front, or
    the later row overtakes it. *)
Definition ties_kept (e x : EventTypeCount) : bool := true.


(** A sort that is not stable: rows of equal count come out reversed. *)
Definition reversing_sort (l : list EventTypeCount) : list EventTypeCount :=
  insertion_sort (rev l).



(** The rows that belong to a group. *)
Definition keyed (r : EventRecord) : bool :=
  match group_key r with Some _ => true | None => false end.

(** A record whose event type is known. *)
Definition has_event_id (r : EventRecord) : bool :=
  match event_id r with Some _ => true | None => false end.

(** [inner] lies strictly below [outer] in the document. *)
Inductive below (outer : Element) : Element -> Prop :=
| below_child c : In c (children outer) -> below outer c
| below_deeper c inner : In c (children outer) -> below c inner -> below outer inner.

Definition is_event (e : Element) : bool :=
  String.eqb (tag e) (ev_ "Event").

(** The [Data] children that carry a given [Name]. *)
Definition named (name : string) (d : Element) : bool :=
  match get d "Name" with
  | Some n => String.eqb n name
  | None => false
  end.

(** The text of the last [Data] child of that name, if there is such a child
    and it has text. *)
Definition last_named_text (name : string) (ds : list Element) : option string :=
  match rev (filter (named name) ds) with
  | d :: _ => text d
  | [] => None
  end.

(** The value a variable of the loop holds at the end: the text of the last
    child of its name, or what it held before the loop. *)
Definition last_or (name : string) (ds : list Element) (before : option string)
  : option string :=
  match rev (filter (named name) ds) with
  | d :: _ => text d
  | [] => before
  end.

(** The table of section 6 of the specification, read row by row. *)
Definition section6 (code : option string) : string :=
  match code with
  | None => "Other Sysmon event"
  | Some c =>
      if String.eqb c "1" then "Process created (a program started)"
      else if String.eqb c "2" then "A process changed a file creation time"
      else if String.eqb c "3" then "Network connection created"
      else if String.eqb c "4" then "Sysmon service state changed"
      else if String.eqb c "5" then "Process terminated (a program ended)"
      else if String.eqb c "6" then "Driver loaded"
      else if String.eqb c "7" then "Image (EXE/DLL) loaded"
      else if String.eqb c "8" then "Remote thread created in another process"
      else if String.eqb c "9" then "Raw disk access"
      else if String.eqb c "10" then "Process accessed another process"
      else if String.eqb c "11" then "File created on disk"
      else if String.eqb c "12" then "Registry object created or deleted"
      else if String.eqb c "13" then "Registry value set"
      else if String.eqb c "14" then "Registry key/values renamed"
      else if String.eqb c "15" then "File stream created"
      else if String.eqb c "22" then "DNS query performed"
      else if String.eqb c "255" then "Sysmon configuration change"
      else "Other Sysmon event"
  end.

(** The image, lower-cased, has one of the names as a literal substring. *)
Definition names_suspicious_image (r : EventRecord) : bool :=
  match image r with
  | Some path => existsb (fun name => contains name (lower path)) suspicious_images
  | None => false
  end.

(** The test the script applies to one row. *)
Definition matches_pattern (r : EventRecord) : bool :=
  match image r with
  | Some path => Re.search (Re.compile suspicious_pattern) (lower path)
  | None => false
  end.

(** A string that runs over more than one line. *)
Definition has_newline (s : string) : bool :=
  existsb (Ascii.eqb (ascii_of_nat 10)) (list_ascii_of_string s).

(** A name read as the script's pattern reads it: the dot is an atom of its
    own, every other character of a name is itself. *)
Definition literal (name : string) : list Re.atom :=
  map (fun c => if Ascii.eqb c "." then Re.Dot else Re.Chr c)
      (list_ascii_of_string name).

(** Equality of grouping keys. *)
Definition key_eqb (a b : key) : bool :=
  String.eqb (fst a) (fst b) && String.eqb (snd a) (snd b).

(** The records of a list that carry a given key. *)
Definition members (k : key) (rs : list EventRecord) : nat :=
  List.length
    (filter (fun r => match group_key r with
                      | Some k' => key_eqb k' k
                      | None => false
                      end) rs).

(** The counts a table holds for a key, added up. *)
Definition count_for (k : key) (g : list EventTypeCount) : nat :=
  list_sum (map count (filter (fun e => key_eqb (key_of e) k) g)).

(** An event element that has no event element below it. *)
Definition flat_event (c : Element) : Prop :=
  is_event c = true /\ forall x, below c x -> is_event x = false.

Definition flat_eventb (c : Element) : bool :=
  is_event c && forallb (fun x => negb (is_event x)) (tl (iter c)).

(** The code of a record is not one of the table. *)
Definition unknown_code (code : option string) : Prop :=
  match code with
  | Some c => lookup c EVENT_DESCRIPTIONS = None
  | None => True
  end.

(** An absent value replaced by the text an absent value is written as. *)
Definition spelled_out (v : option string) : option string :=
  match v with
  | Some s => Some s
  | None => Some "None"
  end.

(** ** Sample documents *)

Definition leaf (local value : string) : Element :=
  mkElement (ev_ local) [] (Some value) [].

Definition data_ (name : string) (value : option string) : Element :=
  mkElement (ev_ "Data") [("Name", name)] value [].

Definition event_ (system data : list Element) : Element :=
  mkElement (ev_ "Event") [] None
    [ mkElement (ev_ "System") [] None system;
      mkElement (ev_ "EventData") [] None data ].

(** The event of the round-trip scenario. *)
Definition cmd_event : Element :=
  event_ [ leaf "EventID" "1"; leaf "Computer" "HOST1" ]
         [ data_ "UtcTime" (Some "2024-01-01T00:00:00Z");
           data_ "Image" (Some "C:\Windows\System32\cmd.exe");
           data_ "ProcessId" (Some "1234") ].

Definition cmd_record : EventRecord :=
  {| event_id := Some "1";
     description := Some "Process created (a program started)";
     utc_time := Some "2024-01-01T00:00:00Z";
     image := Some "C:\Windows\System32\cmd.exe";
     process_id := Some "1234";
     computer := Some "HOST1" |}.

(** A log: a root element [Events] around the events. *)
Definition events_ (evs : list Element) : Element :=
  mkElement (ev_ "Events") [] None evs.

(** An event without a [System] child: its event type is unknown. *)
Definition anonymous_event : Element :=
  mkElement (ev_ "Event") [] None
    [ mkElement (ev_ "EventData") [] None
        [ data_ "Image" (Some "C:\Windows\explorer.exe") ] ].

Definition anonymous_record : EventRecord :=
  {| event_id := None;
     description := Some "Other Sysmon event";
     utc_time := None;
     image := Some "C:\Windows\explorer.exe";
     process_id := None;
     computer := None |}.

(** A [System] child that names the computer but not the event type, and one
    that names the event type but not the computer. *)
Definition event_without_id : Element :=
  event_ [ leaf "Computer" "HOST1" ] [ data_ "ProcessId" (Some "1234") ].

Definition event_without_computer : Element :=
  event_ [ leaf "EventID" "1" ] [ data_ "ProcessId" (Some "1234") ].

(** A file whose name matches [cmd.exe] read as a regular expression and
    has none of the six names in it. *)
Definition log_file_record : EventRecord :=
  {| event_id := Some "11";
     description := Some "File created on disk";
     utc_time := Some "2024-01-01T00:00:00Z";
     image := Some "C:\Users\bob\cmd-exec.log";
     process_id := Some "42";
     computer := Some "HOST1" |}.

(** An event whose [Image] text runs over a line break. *)
Definition two_line_event : Element :=
  event_ [ leaf "EventID" "1"; leaf "Computer" "HOST1" ]
         [ data_ "UtcTime" (Some "2024-01-01T00:00:00Z");
           data_ "Image" (Some ("C:\Temp\a.exe" ++ newline ++ "-k"));
           data_ "ProcessId" (Some "7") ].

Definition two_line_record : EventRecord :=
  {| event_id := Some "1";
     description := Some "Process created (a program started)";
     utc_time := Some "2024-01-01T00:00:00Z";
     image := Some ("C:\Temp\a.exe" ++ newline ++ "-k");
     process_id := Some "7";
     computer := Some "HOST1" |}.

(** An event whose [Data] children repeat a name; the last [Image] is empty. *)
Definition repeated_event : Element :=
  event_ [ leaf "EventID" "1"; leaf "Computer" "HOST1" ]
         [ data_ "UtcTime" (Some "2024-01-01T00:00:00Z");
           data_ "Image" (Some "C:\first.exe");
           data_ "UtcTime" (Some "2024-01-02T00:00:00Z");
           data_ "Image" None;
           data_ "User" (Some "bob") ].

(** A log without events. *)
Definition empty_log_text : string :=
  "<Events xmlns='http://schemas.microsoft.com/win/2004/08/events/event'/>".

Definition empty_log : Element := events_ [].

(** A log of two events. *)
Definition two_event_log_text : string :=
  "<Events xmlns='http://schemas.microsoft.com/win/2004/08/events/event'>"
  ++ "<Event><System><EventID>1</EventID><Computer>HOST1</Computer></System>"
  ++ "<EventData><Data Name='UtcTime'>2024-01-01T00:00:00Z</Data>"
  ++ "<Data Name='Image'>C:\Windows\System32\cmd.exe</Data>"
  ++ "<Data Name='ProcessId'>1234</Data></EventData></Event>"
  ++ "<Event><EventData><Data Name='Image'>C:\Windows\explorer.exe</Data>"
  ++ "</EventData></Event></Events>".

Definition two_event_log : Element := events_ [cmd_event; anonymous_event].

(** A document whose root element is itself an event. *)
Definition lone_event_text : string :=
  "<Event xmlns='http://schemas.microsoft.com/win/2004/08/events/event'>"
  ++ "<System><EventID>1</EventID><Computer>HOST1</Computer></System>"
  ++ "</Event>".

Definition lone_event : Element :=
  mkElement (ev_ "Event") [] None
    [ mkElement (ev_ "System") [] None
        [ leaf "EventID" "1"; leaf "Computer" "HOST1" ] ].

(** A file system with the one file the script reads, and a parser that
    knows the one document. *)
Definition one_file (document : string) (path : string) : option string :=
  if String.eqb path "data/sysmon_events.xml" then Some document else None.

Definition parses_to (text : string) (root : Element) (document : string)
  : option Element :=
  if String.eqb document text then Some root else None.

(** ** The order of the grouping keys *)

Section KeyOrder.

Lemma ascii_compare_refl (a : ascii) : Ascii.compare a a = Eq.
Proof. unfold Ascii.compare. apply N.compare_refl. Qed.

Lemma ascii_compare_lt_trans (a b c : ascii) :
  Ascii.compare a b = Lt -> Ascii.compare b c = Lt -> Ascii.compare a c = Lt.
Proof.
  unfold Ascii.compare. rewrite !N.compare_lt_iff. apply N.lt_trans.
Qed.

Lemma string_compare_refl (s : string) : String.compare s s = Eq.
Proof.
  induction s as [|a s IH]; simpl; [reflexivity|].
  now rewrite ascii_compare_refl.
Qed.

Lemma string_compare_lt_trans (s1 : string) :
  forall s2 s3,
    String.compare s1 s2 = Lt -> String.compare s2 s3 = Lt ->
    String.compare s1 s3 = Lt.
Proof.
  induction s1 as [|a s1 IH]; intros [|b s2] [|c s3]; simpl;
    try congruence.
  destruct (Ascii.compare a b) eqn:Hab; try discriminate;
    destruct (Ascii.compare b c) eqn:Hbc; try discriminate; intros H12 H23.
  - apply Ascii.compare_eq_iff in Hab, Hbc. subst.
    rewrite ascii_compare_refl. eauto.
  - apply Ascii.compare_eq_iff in Hab. subst. rewrite Hbc. reflexivity.
  - apply Ascii.compare_eq_iff in Hbc. subst. rewrite Hab. reflexivity.
  - rewrite (ascii_compare_lt_trans _ _ _ Hab Hbc). reflexivity.
Qed.

Lemma key_compare_eq (a b : key) : key_compare a b = Eq -> a = b.
Proof.
  destruct a as [a1 a2], b as [b1 b2]. unfold key_compare. simpl.
  destruct (String.compare a1 b1) eqn:H1; try discriminate.
  intros H2. apply String.compare_eq_iff in H1, H2. congruence.
Qed.

Lemma key_compare_refl (a : key) : key_compare a a = Eq.
Proof.
  unfold key_compare. now rewrite !string_compare_refl.
Qed.

Lemma key_compare_gt (a b : key) : key_compare a b = Gt -> key_lt b a.
Proof.
  destruct a as [a1 a2], b as [b1 b2]. unfold key_lt, key_compare. simpl.
  rewrite (String.compare_antisym a1 b1), (String.compare_antisym a2 b2).
  destruct (String.compare b1 a1); simpl; try congruence.
  destruct (String.compare b2 a2); simpl; congruence.
Qed.

Lemma key_lt_trans (a b c : key) : key_lt a b -> key_lt b c -> key_lt a c.
Proof.
  destruct a as [a1 a2], b as [b1 b2], c as [c1 c2].
  unfold key_lt, key_compare. simpl.
  destruct (String.compare a1 b1) eqn:Hab; try discriminate;
    destruct (String.compare b1 c1) eqn:Hbc; try discriminate; intros H12 H23.
  - apply String.compare_eq_iff in Hab, Hbc. subst.
    rewrite string_compare_refl. eapply string_compare_lt_trans; eauto.
  - apply String.compare_eq_iff in Hab. subst. now rewrite Hbc.
  - apply String.compare_eq_iff in Hbc. subst. now rewrite Hab.
  - now rewrite (string_compare_lt_trans _ _ _ Hab Hbc).
Qed.

Lemma key_lt_irrefl (a : key) : ~ key_lt a a.
Proof. unfold key_lt. rewrite key_compare_refl. discriminate. Qed.

End KeyOrder.

(** Keys in strictly ascending order are pairwise distinct. *)
Lemma ascending_NoDup (ks : list key) : StronglySorted key_lt ks -> NoDup ks.
Proof.
  induction 1 as [|k ks Hs IH Hall]; constructor; auto.
  intros Hin. rewrite Forall_forall in Hall.
  exact (key_lt_irrefl k (Hall k Hin)).
Qed.

Lemma ascending_filter (p : EventTypeCount -> bool) (l : list EventTypeCount) :
  StronglySorted key_lt (map key_of l) ->
  StronglySorted key_lt (map key_of (filter p l)).
Proof.
  induction l as [|e l IH]; simpl; intros Hs; [constructor|].
  apply StronglySorted_inv in Hs. destruct Hs as [Hs Hall].
  destruct (p e); simpl; auto.
  constructor; auto.
  rewrite Forall_forall in *. intros k Hk. apply Hall.
  rewrite in_map_iff in *. destruct Hk as (x & Hx & Hin).
  apply filter_In in Hin. exists x. tauto.
Qed.

(** ** Grouping *)

Section Grouping.

Lemma total_bump (k : key) (g : list EventTypeCount) :
  total (bump k g) = S (total g).
Proof.
  unfold total. induction g as [|e g IH]; simpl; [reflexivity|].
  destruct (key_compare k (key_of e)); simpl; lia.
Qed.

Lemma keys_bump (k k' : key) (g : list EventTypeCount) :
  In k' (map key_of (bump k g)) <-> k' = k \/ In k' (map key_of g).
Proof.
  induction g as [|e g IH]; simpl.
  - destruct k; unfold key_of; simpl. split.
    + intros [H|[]]. left. now symmetry.
    + intros [H|[]]. left. now symmetry.
  - destruct (key_compare k (key_of e)) eqn:Hc; simpl.
    + apply key_compare_eq in Hc. subst k.
      change (key_of (mkCount (c_event_id e) (c_description e) (S (count e))))
        with (key_of e).
      split; [intros [H|H]|intros [H|[H|H]]]; auto.
    + destruct k; unfold key_of at 1; simpl. split.
      * intros [H|H]; [left; now symmetry | now right].
      * intros [H|H]; [left; now symmetry | now right].
    + rewrite IH. tauto.
Qed.

Lemma ascending_bump (k : key) (g : list EventTypeCount) :
  StronglySorted key_lt (map key_of g) ->
  StronglySorted key_lt (map key_of (bump k g)).
Proof.
  induction g as [|e g IH]; simpl; intros Hs.
  - repeat constructor.
  - apply StronglySorted_inv in Hs. destruct Hs as [Hs Hall].
    destruct (key_compare k (key_of e)) eqn:Hc; simpl.
    + constructor; assumption.
    + replace (fst k, snd k) with k by now destruct k.
      constructor; [constructor; assumption|].
      constructor; [exact Hc|].
      rewrite Forall_forall in *. intros x Hx.
      exact (key_lt_trans _ _ _ Hc (Hall x Hx)).
    + constructor; [auto|].
      rewrite Forall_forall in *. intros x Hx.
      apply keys_bump in Hx. destruct Hx as [->|Hx]; auto.
      now apply key_compare_gt.
Qed.

Lemma total_groups (rs : list EventRecord) :
  forall g,
    total (fold_left add_row rs g) = total g + List.length (filter keyed rs).
Proof.
  induction rs as [|r rs IH]; intros g; simpl; [lia|].
  rewrite IH. unfold add_row, keyed.
  destruct (group_key r); simpl; [rewrite total_bump|]; lia.
Qed.

Lemma keys_groups (k : key) (rs : list EventRecord) :
  forall g,
    In k (map key_of (fold_left add_row rs g)) <->
    In k (map key_of g) \/ exists r, In r rs /\ group_key r = Some k.
Proof.
  induction rs as [|r rs IH]; intros g; simpl.
  - split; [tauto|]. intros [H|(r & [] & _)]. exact H.
  - rewrite IH. unfold add_row.
    destruct (group_key r) as [kr|] eqn:Hr.
    + rewrite keys_bump. split.
      * intros [[->|H]|(x & Hx & Hk)]; eauto.
      * intros [H|(x & [<-|Hx] & Hk)]; eauto.
        left; left; congruence.
    + split.
      * intros [H|(x & Hx & Hk)]; eauto.
      * intros [H|(x & [<-|Hx] & Hk)]; eauto. congruence.
Qed.

Lemma ascending_groups (rs : list EventRecord) :
  forall g,
    StronglySorted key_lt (map key_of g) ->
    StronglySorted key_lt (map key_of (fold_left add_row rs g)).
Proof.
  induction rs as [|r rs IH]; intros g Hs; simpl; [exact Hs|].
  apply IH. unfold add_row.
  destruct (group_key r); [now apply ascending_bump | exact Hs].
Qed.

(** A frame with rows has the columns of the records. *)
Lemma groupby_size_rows (r : EventRecord) (rs : list EventRecord) :
  groupby_size (DataFrame_of (r :: rs)) = Ok (fold_left add_row (r :: rs) []).
Proof. reflexivity. Qed.

End Grouping.

(** ** Sorting *)

Section Sorting.

Lemma total_Permutation (l l' : list EventTypeCount) :
  Permutation l l' -> total l = total l'.
Proof.
  unfold total. induction 1; simpl; lia.
Qed.


Lemma insert_desc_perm (e : EventTypeCount) (l : list EventTypeCount) :
  Permutation (insert_desc e l) (e :: l).
Proof.
  induction l as [|x l IH]; simpl; [reflexivity|].
  destruct (Nat.leb (count x) (count e)); [reflexivity|].
  rewrite IH. apply perm_swap.
Qed.

Lemma insert_desc_sorted (e : EventTypeCount) (l : list EventTypeCount) :
  Sorted count_ge l -> Sorted count_ge (insert_desc e l).
Proof.
  induction l as [|x l IH]; simpl; intros Hs.
  - repeat constructor.
  - destruct (Nat.leb (count x) (count e)) eqn:Hle.
    + apply Nat.leb_le in Hle.
      constructor; [assumption | constructor; exact Hle].
    + apply Nat.leb_gt in Hle. apply Sorted_inv in Hs. destruct Hs as [Hs Hd].
      constructor; [auto|].
      destruct l as [|y l]; simpl.
      * constructor. unfold count_ge. lia.
      * destruct (Nat.leb (count y) (count e)); constructor.
        -- unfold count_ge. lia.
        -- now inversion Hd.
Qed.

Lemma insert_desc_stable (c : nat) (e : EventTypeCount) (l : list EventTypeCount) :
  with_count c (insert_desc e l) = with_count c (e :: l).
Proof.
  unfold with_count. induction l as [|x l IH]; simpl; [reflexivity|].
  destruct (Nat.leb (count x) (count e)) eqn:Hle; [reflexivity|].
  apply Nat.leb_gt in Hle. simpl. rewrite IH. simpl.
  destruct (Nat.eqb (count e) c) eqn:He, (Nat.eqb (count x) c) eqn:Hx;
    try reflexivity.
  apply Nat.eqb_eq in He, Hx. lia.
Qed.

Lemma insertion_sort_sorts : sorts_by_count insertion_sort.
Proof.
  intros l. split.
  - induction l as [|e l IH]; simpl; [reflexivity|].
    rewrite insert_desc_perm. now constructor.
  - induction l as [|e l IH]; simpl; [constructor|].
    now apply insert_desc_sorted.
Qed.

Lemma insertion_sort_stable : stable insertion_sort.
Proof.
  intros c l. induction l as [|e l IH]; simpl; [reflexivity|].
  rewrite insert_desc_stable. unfold with_count in *. simpl.
  now rewrite IH.
Qed.

Lemma reversing_sort_sorts : sorts_by_count reversing_sort.
Proof.
  intros l. unfold reversing_sort.
  destruct (insertion_sort_sorts (rev l)) as [Hp Hs]. split; [|exact Hs].
  rewrite Hp. symmetry. apply Permutation_rev.
Qed.

(** The promise of [sort_values] does not settle the order of ties: the
    two sorts above keep it and differ on two rows of equal count. *)
Lemma ties_not_settled :
  let rows := [mkCount "1" "Process created (a program started)" 1;
               mkCount "3" "Network connection created" 1] in
  insertion_sort rows = rows /\ reversing_sort rows = rev rows.
Proof. split; reflexivity. Qed.

End Sorting.

(** ** Description resolution *)

Lemma describe_section6 (code : option string) :
  describe code = Some (section6 code).
Proof.
  destruct code as [c|]; [|reflexivity].
  unfold describe, dict_get, section6. simpl.
  repeat match goal with
         | |- context [String.eqb c ?k] => destruct (String.eqb c k)
         end; reflexivity.
Qed.

Example describe_999 : describe (Some "999") = Some "Other Sysmon event".
Proof. reflexivity. Qed.

(** C5. Description resolution is total: whatever the code, a listed one,
    an unlisted one or [None], [describe] returns a string, and that string
    is the entry of the table of section 6 for a listed code and
    ["Other Sysmon event"] otherwise. *)
Theorem describe_total (code : option string) :
  exists phrase : string,
    describe code = Some phrase /\ phrase = section6 code.
Proof.
  exists (section6 code). split; [apply describe_section6 | reflexivity].
Qed.

(** ** Extraction *)

Lemma parse_event_description (ev : Element) (r : EventRecord) :
  parse_event ev = Ok r -> description r = Some (section6 (event_id r)).
Proof.
  unfold parse_event.
  destruct (match find (ev_ "System") ev with
            | Some s => text_of (find (ev_ "EventID") s)
            | None => Ok None
            end) as [i|]; simpl; [|discriminate].
  destruct (match find (ev_ "System") ev with
            | Some s => text_of (find (ev_ "Computer") s)
            | None => Ok None
            end) as [c|]; simpl; [|discriminate].
  intros H. injection H as <-. simpl. apply describe_section6.
Qed.

Lemma parse_event_data (ev : Element) (r : EventRecord) :
  parse_event ev = Ok r ->
  let fields :=
    match find (ev_ "EventData") ev with
    | Some d => fold_left data_step (findall (ev_ "Data") d) no_data
    | None => no_data
    end in
  utc_time r = d_utc_time fields /\ image r = d_image fields
  /\ process_id r = d_proc_id fields.
Proof.
  unfold parse_event.
  destruct (match find (ev_ "System") ev with
            | Some s => text_of (find (ev_ "EventID") s)
            | None => Ok None
            end) as [i|]; simpl; [|discriminate].
  destruct (match find (ev_ "System") ev with
            | Some s => text_of (find (ev_ "Computer") s)
            | None => Ok None
            end) as [c|]; simpl; [|discriminate].
  intros H. injection H as <-. simpl. auto.
Qed.

Lemma last_or_snoc (name : string) (ds : list Element) (d : Element)
      (before : option string) :
  last_or name (ds ++ [d]) before =
  if named name d then text d else last_or name ds before.
Proof.
  unfold last_or. rewrite filter_app, rev_app_distr. simpl.
  destruct (named name d); reflexivity.
Qed.

Lemma data_loop (ds : list Element) (acc : DataFields) :
  fold_left data_step ds acc =
  mkData (last_or "UtcTime" ds (d_utc_time acc))
         (last_or "Image" ds (d_image acc))
         (last_or "ProcessId" ds (d_proc_id acc)).
Proof.
  induction ds as [|d ds IH] using rev_ind.
  - destruct acc; reflexivity.
  - rewrite fold_left_app, !last_or_snoc. simpl. rewrite IH.
    unfold data_step, named.
    destruct (get d "Name") as [n|]; [|reflexivity].
    destruct (String.eqb_spec n "UtcTime") as [->|H1]; [reflexivity|].
    destruct (String.eqb_spec n "Image") as [->|H2]; [reflexivity|].
    destruct (String.eqb_spec n "ProcessId") as [->|H3]; reflexivity.
Qed.

(** C3. Failing input: an event whose [System] child has no [EventID]
    child, or no [Computer] child.  [find] returns [None] and reading
    [.text] of it raises [AttributeError]; no record is produced. *)
Theorem missing_system_child_raises :
  parse_event event_without_id = Raise AttributeError /\
  parse_event event_without_computer = Raise AttributeError.
Proof. split; reflexivity. Qed.

(** Without a [System] child extraction succeeds and the two fields are
    absent. *)
Lemma parse_event_without_system (ev : Element) :
  find (ev_ "System") ev = None ->
  exists r, parse_event ev = Ok r /\ event_id r = None /\ computer r = None.
Proof.
  intros H. unfold parse_event. rewrite H. simpl. eexists. split; eauto.
Qed.

(** C10. When the [EventData] child holds several [Data] children of one of
    the names [UtcTime], [Image], [ProcessId], the record carries the text of
    the last of them in document order; it carries [None] when that child has
    no text, and when there is no child of the name. *)
Theorem last_data_child_wins (ev data : Element) (r : EventRecord) :
  find (ev_ "EventData") ev = Some data ->
  parse_event ev = Ok r ->
  utc_time r = last_named_text "UtcTime" (findall (ev_ "Data") data) /\
  image r = last_named_text "Image" (findall (ev_ "Data") data) /\
  process_id r = last_named_text "ProcessId" (findall (ev_ "Data") data).
Proof.
  intros Hdata Hr. apply parse_event_data in Hr. rewrite Hdata in Hr.
  rewrite data_loop in Hr. exact Hr.
Qed.

(** The theorem at an event that repeats [UtcTime] and [Image]. *)
Lemma last_data_child_wins_witness :
  find (ev_ "EventData") repeated_event
  = Some (mkElement (ev_ "EventData") [] None
            [ data_ "UtcTime" (Some "2024-01-01T00:00:00Z");
              data_ "Image" (Some "C:\first.exe");
              data_ "UtcTime" (Some "2024-01-02T00:00:00Z");
              data_ "Image" None;
              data_ "User" (Some "bob") ]) /\
  parse_event repeated_event
  = Ok (mkRecord (Some "1") (Some "Process created (a program started)")
                 (Some "2024-01-02T00:00:00Z") None None (Some "HOST1")) /\
  Some "2024-01-02T00:00:00Z"
  = last_named_text "UtcTime"
      [ data_ "UtcTime" (Some "2024-01-01T00:00:00Z");
        data_ "Image" (Some "C:\first.exe");
        data_ "UtcTime" (Some "2024-01-02T00:00:00Z");
        data_ "Image" None;
        data_ "User" (Some "bob") ].
Proof.
  split; [reflexivity|]. split; [reflexivity|].
  exact (proj1 (last_data_child_wins repeated_event _ _ eq_refl eq_refl)).
Defined.

(** ** Rendering *)

Lemma has_newline_app (a b : string) :
  has_newline (a ++ b) = has_newline a || has_newline b.
Proof.
  unfold has_newline. induction a as [|c a IH]; simpl; [reflexivity|].
  now rewrite IH, orb_assoc.
Qed.

(** C6, as the script has it.  The sentence of a record is the template
    with the five values put in, an absent value being written [None] and not
    left empty; the template adds no line break, so the sentence is one line
    exactly when none of the five values written holds a line break. *)
Theorem to_sentence_template (r : EventRecord) :
  to_sentence r =
    "At " ++ format (utc_time r) ++ ", on computer " ++ format (computer r)
    ++ ", " ++ format (description r) ++ ": " ++ format (image r)
    ++ " (process ID " ++ format (process_id r) ++ ")."
  /\ format None = "None"
  /\ format None <> ""
  /\ (forall s : string, format (Some s) = s)
  /\ has_newline (to_sentence r)
     = has_newline (format (utc_time r)) || has_newline (format (computer r))
       || has_newline (format (description r))
       || has_newline (format (image r))
       || has_newline (format (process_id r)).
Proof.
  split; [|split; [|split; [|split]]].
  - reflexivity.
  - reflexivity.
  - discriminate.
  - reflexivity.
  - unfold to_sentence.
    change (row_get r "utc_time") with (utc_time r).
    change (row_get r "computer") with (computer r).
    change (row_get r "description") with (description r).
    change (row_get r "image") with (image r).
    change (row_get r "process_id") with (process_id r).
    rewrite !has_newline_app.
    generalize (has_newline (format (utc_time r))),
      (has_newline (format (computer r))),
      (has_newline (format (description r))),
      (has_newline (format (image r))),
      (has_newline (format (process_id r))).
    intros [] [] [] [] []; reflexivity.
Qed.

(** C6, as stated, fails on an event whose [Image] text holds a line
    feed: extraction carries the text as it is, and the sentence of the
    record runs over two lines. *)
Lemma sentence_spans_two_lines :
  parse_event two_line_event = Ok two_line_record /\
  to_sentence two_line_record =
    "At 2024-01-01T00:00:00Z, on computer HOST1, Process created (a program started): C:\Temp\a.exe"
    ++ newline ++ "-k (process ID 7)." /\
  has_newline (to_sentence two_line_record) = true.
Proof. repeat split; reflexivity. Qed.

Example to_sentence_anonymous :
  to_sentence anonymous_record =
  "At None, on computer None, Other Sysmon event: C:\Windows\explorer.exe (process ID None).".
Proof. reflexivity. Qed.


(** ** The suspicious-event filter *)

Section Filter.

Lemma mask_filter {A : Type} (p q : A -> bool) (rs : list A) :
  map fst (filter snd (combine rs (and_ (map p rs) (map q rs))))
  = filter (fun r => p r && q r) rs.
Proof.
  unfold and_. induction rs as [|r rs IH]; simpl; [reflexivity|].
  destruct (p r), (q r); simpl; now rewrite IH.
Qed.

Lemma select_suspicious (cols : list string) (rs : list EventRecord) :
  select (mkFrame cols rs)
         (and_ (notna (map (fun r => row_get r "image") rs))
               (str_contains suspicious_pattern false
                  (str_lower (map (fun r => row_get r "image") rs))))
  = filter matches_pattern rs.
Proof.
  unfold select, notna, str_contains, str_lower. simpl rows.
  rewrite !map_map, mask_filter. apply filter_ext. intros r.
  change (row_get r "image") with (image r). unfold matches_pattern.
  destruct (image r); reflexivity.
Qed.

(** On a frame with rows the filter keeps the rows that match the pattern,
    in the order of the frame, and a row without image never matches. *)
Lemma interesting_rows (r : EventRecord) (rs : list EventRecord) :
  interesting (DataFrame_of (r :: rs)) = Ok (filter matches_pattern (r :: rs)).
Proof.
  unfold interesting, getitem. cbn [DataFrame_of].
  change (has_column (mkFrame record_keys (r :: rs)) "image") with true.
  cbn [bind rows]. f_equal. apply select_suspicious.
Qed.

Lemma compile_suspicious_pattern :
  Re.compile suspicious_pattern = map literal (map lower suspicious_images).
Proof. reflexivity. Qed.

Lemma pattern_is_plain :
  forallb Re.plain_char (list_ascii_of_string suspicious_pattern) = true.
Proof. reflexivity. Qed.

Lemma prefix_matches (name : string) :
  forall s, String.prefix name s = true -> Re.matches_at (literal name) s = true.
Proof.
  induction name as [|a name IH]; intros s; [reflexivity|].
  destruct s as [|b s]; simpl; [discriminate|].
  destruct (ascii_dec a b) as [<-|]; [|discriminate].
  intros H. change (literal (String a name))
    with ((if Ascii.eqb a "." then Re.Dot else Re.Chr a) :: literal name).
  cbn [Re.matches_at]. fold (literal name). rewrite (IH s H), andb_true_r.
  destruct (Ascii.eqb_spec a ".") as [->|]; simpl; [reflexivity|].
  apply Ascii.eqb_refl.
Qed.

Lemma contains_search (name : string) (r : Re.regex) :
  In (literal name) r ->
  forall s, contains name s = true -> Re.search r s = true.
Proof.
  intros Hin. induction s as [|c s IH].
  - cbn [contains Re.search]. rewrite !orb_false_r. intros H.
    apply existsb_exists. exists (literal name). split; [exact Hin|].
    now apply prefix_matches.
  - cbn [contains Re.search]. intros H. apply orb_true_iff in H.
    apply orb_true_iff. destruct H as [H|H]; [left | right; auto].
    apply existsb_exists. exists (literal name). split; [exact Hin|].
    now apply prefix_matches.
Qed.

(** A record whose lower-cased image contains one of the six names is
    selected. *)
Lemma literal_name_matches (r : EventRecord) :
  names_suspicious_image r = true -> matches_pattern r = true.
Proof.
  unfold names_suspicious_image, matches_pattern.
  destruct (image r) as [path|]; [|discriminate].
  intros H. apply existsb_exists in H. destruct H as (name & Hin & Hc).
  apply (contains_search name); [|exact Hc].
  rewrite compile_suspicious_pattern.
  assert (Hl : forall n, In n suspicious_images -> lower n = n).
  { intros n Hn. simpl in Hn.
    repeat (destruct Hn as [<-|Hn]; [reflexivity|]). destruct Hn. }
  apply in_map. rewrite <- (Hl name Hin). now apply in_map.
Qed.

End Filter.

(** C4. Failing input: a record whose image is
    [C:\Users\bob\cmd-exec.log].  The script hands the joined names to
    [str.contains] as a regular expression, where the dot of [cmd.exe]
    stands for any character, so the record is selected although its
    lower-cased image contains none of the six names as a literal
    substring. *)
Theorem pattern_dot_selects_other_names :
  interesting (DataFrame_of [log_file_record]) = Ok [log_file_record] /\
  names_suspicious_image log_file_record = false.
Proof. split; reflexivity. Qed.

(** C7. The round trip of the scenario: the event is found in a log,
    extraction gives its record, the record renders as the sentence of the
    scenario and the filter keeps it. *)
Theorem cmd_event_round_trip :
  findall_descendants (ev_ "Event") (events_ [cmd_event]) = [cmd_event] /\
  parse_event cmd_event = Ok cmd_record /\
  to_sentence cmd_record =
    "At 2024-01-01T00:00:00Z, on computer HOST1, Process created (a program started): C:\Windows\System32\cmd.exe (process ID 1234)." /\
  interesting (DataFrame_of [cmd_record]) = Ok [cmd_record].
Proof. repeat split; reflexivity. Qed.

(** ** The empty log *)

(** C1. Failing input: a well-formed log without any event.  The loader
    returns the empty list, the frame built from it has no columns, and
    grouping by [event_id] raises [KeyError]: no count table, no selection and
    no report are produced.  The selection alone raises as well. *)
Theorem no_events_is_key_error
        (sort_values : list EventTypeCount -> list EventTypeCount)
        (to_string : list EventTypeCount -> string) :
  load_sysmon_events (one_file empty_log_text)
                     (parses_to empty_log_text empty_log)
                     "data/sysmon_events.xml" = Ok [] /\
  main (one_file empty_log_text) (parses_to empty_log_text empty_log)
       sort_values to_string "data/sysmon_events.xml"
  = Raise (KeyError "event_id") /\
  analyse sort_values to_string [] = Raise (KeyError "event_id") /\
  counts sort_values (DataFrame_of []) = Raise (KeyError "event_id") /\
  interesting (DataFrame_of []) = Raise (KeyError "image").
Proof. repeat split; reflexivity. Qed.

(** ** Counting *)

Section Counting.

Lemma comprehension_Forall {A B : Type} (f : A -> result B) (xs : list A) :
  forall ys,
    comprehension f xs = Ok ys -> Forall (fun y => exists x, f x = Ok y) ys.
Proof.
  induction xs as [|x xs IH]; simpl; intros ys H.
  - injection H as <-. constructor.
  - destruct (f x) as [y|] eqn:Hx; simpl in H; [|discriminate].
    destruct (comprehension f xs) as [ys'|]; simpl in H; [|discriminate].
    injection H as <-. constructor; eauto.
Qed.

(** An extracted record always has a description, so it joins a group
    exactly when its event type is known. *)
Lemma keyed_extracted (ev : Element) (r : EventRecord) :
  parse_event ev = Ok r -> keyed r = has_event_id r.
Proof.
  intros H. apply parse_event_description in H.
  unfold keyed, group_key, has_event_id.
  change (row_get r "event_id") with (event_id r).
  change (row_get r "description") with (description r).
  rewrite H. destruct (event_id r); reflexivity.
Qed.

Lemma group_key_pair (r : EventRecord) (i d : string) :
  group_key r = Some (i, d) <-> event_id r = Some i /\ description r = Some d.
Proof.
  unfold group_key.
  change (row_get r "event_id") with (event_id r).
  change (row_get r "description") with (description r).
  destruct (event_id r), (description r); split;
    try discriminate; try (intros [? ?]; discriminate).
  - intros H. injection H as -> ->. auto.
  - intros [H1 H2]. injection H1 as ->. injection H2 as ->. reflexivity.
Qed.

Lemma counts_rows (sort_values : list EventTypeCount -> list EventTypeCount)
      (parsed : list EventRecord) :
  parsed <> [] ->
  counts sort_values (DataFrame_of parsed)
  = Ok (sort_values (fold_left add_row parsed [])).
Proof.
  destruct parsed as [|r rs]; [congruence|]. intros _.
  unfold counts. now rewrite groupby_size_rows.
Qed.

End Counting.

(** C2, as the script has it.  For every non-empty sequence of extracted
    records the count table is produced and its counts add up to the number
    of records whose event type is known: a record with an absent [event_id]
    belongs to no group. *)
Theorem counts_total_known
        (sort_values : list EventTypeCount -> list EventTypeCount)
        (events : list Element) (parsed : list EventRecord) :
  (forall l, Permutation (sort_values l) l) ->
  comprehension parse_event events = Ok parsed ->
  parsed <> [] ->
  exists cs,
    counts sort_values (DataFrame_of parsed) = Ok cs /\
    total cs = List.length (filter has_event_id parsed).
Proof.
  intros Hperm Hparsed Hne. eexists. split; [now apply counts_rows|].
  rewrite (total_Permutation _ _ (Hperm _)), total_groups. simpl.
  f_equal. apply filter_ext_in. intros r Hr.
  apply comprehension_Forall in Hparsed. rewrite Forall_forall in Hparsed.
  destruct (Hparsed r Hr) as (ev & Hev). exact (keyed_extracted ev r Hev).
Qed.

(** The theorem at three extracted records, one of them without event type. *)
Lemma counts_total_known_witness :
  (forall l, Permutation (insertion_sort l) l) /\
  comprehension parse_event [cmd_event; anonymous_event; cmd_event]
  = Ok [cmd_record; anonymous_record; cmd_record] /\
  [cmd_record; anonymous_record; cmd_record] <> [] /\
  exists cs,
    counts insertion_sort
           (DataFrame_of [cmd_record; anonymous_record; cmd_record]) = Ok cs /\
    total cs
    = List.length (filter has_event_id [cmd_record; anonymous_record; cmd_record]).
Proof.
  split; [exact (fun l => proj1 (insertion_sort_sorts l))|].
  split; [reflexivity|]. split; [discriminate|].
  apply (counts_total_known insertion_sort
           [cmd_event; anonymous_event; cmd_event]).
  - exact (fun l => proj1 (insertion_sort_sorts l)).
  - reflexivity.
  - discriminate.
Defined.

(** C2, as stated, fails on one event without a [System] child: it is
    extracted, its [event_id] is absent, the count table is empty and the
    counts add up to 0, not to 1. *)
Lemma counts_leave_out_anonymous :
  comprehension parse_event [anonymous_event] = Ok [anonymous_record] /\
  counts insertion_sort (DataFrame_of [anonymous_record]) = Ok [] /\
  total [] <> List.length [anonymous_record].
Proof. repeat split; try reflexivity. discriminate. Qed.

Section SortValues.

Variable before : EventTypeCount -> EventTypeCount -> bool.






End SortValues.




Example counts_sample :
  counts insertion_sort
    (DataFrame_of [log_file_record; cmd_record; anonymous_record; cmd_record])
  = Ok [ mkCount "1" "Process created (a program started)" 2;
         mkCount "11" "File created on disk" 1 ].
Proof. reflexivity. Qed.


(** With the earlier row kept in front the same two groups come out in the
    order of the grouping: the order of ties is the sorting routine's. *)
Example tie_order_kept :
  counts (sort_values_by ties_kept)
         (DataFrame_of [cmd_record; log_file_record])
  = Ok [ mkCount "1" "Process created (a program started)" 1;
         mkCount "11" "File created on disk" 1 ].
Proof. reflexivity. Qed.


(** ** Loading *)

Section Loading.

Lemma Element_induction (P : Element -> Prop) :
  (forall e, Forall P (children e) -> P e) -> forall e, P e.
Proof.
  intros H. fix IH 1. intros [t a x cs]. apply H. simpl.
  induction cs as [|c cs IHcs]; constructor; [apply IH | exact IHcs].
Qed.

Lemma iter_unfold (e : Element) : iter e = e :: flat_map iter (children e).
Proof.
  destruct e as [t a x cs]. reflexivity.
Qed.

Lemma below_children (e x : Element) :
  below e x <-> exists c, In c (children e) /\ (x = c \/ below c x).
Proof.
  split.
  - intros [c Hc | c inner Hc Hb]; eauto.
  - intros (c & Hc & [->|Hb]); [now apply below_child|].
    now apply (below_deeper e c).
Qed.

(** [iter] yields the element and exactly the elements below it. *)
Lemma in_iter (x : Element) : forall e, In x (iter e) <-> x = e \/ below e x.
Proof.
  induction e as [e IH] using Element_induction.
  rewrite iter_unfold, below_children. simpl. rewrite in_flat_map.
  rewrite Forall_forall in IH.
  split.
  - intros [H|(c & Hc & Hx)]; [left; now symmetry|].
    right. exists c. split; [exact Hc|]. now apply IH.
  - intros [H|(c & Hc & Hx)]; [left; now symmetry|].
    right. exists c. split; [exact Hc|]. now apply IH.
Qed.

Lemma findall_descendants_below (qname : string) (root e : Element) :
  In e (findall_descendants qname root) <-> below root e /\ tag e = qname.
Proof.
  unfold findall_descendants. rewrite iter_unfold. simpl.
  rewrite filter_In, in_flat_map, String.eqb_eq, below_children.
  split.
  - intros [(c & Hc & Hx) Ht]. split; [|exact Ht].
    exists c. split; [exact Hc|]. now apply in_iter.
  - intros [(c & Hc & Hx) Ht]. split; [|exact Ht].
    exists c. split; [exact Hc|]. now apply in_iter.
Qed.

End Loading.

(** C9, as the script has it.  The loader raises the not-found error when
    there is no file at the path and the parse error when its contents are
    not well-formed; otherwise it returns the elements named [Event] in the
    namespace that lie strictly below the root element, in document order.
    The root element itself is never returned. *)
Theorem load_sysmon_events_below_root
        (read_file : string -> option string)
        (XMLParser : string -> option Element) (xml_path : string) :
  match read_file xml_path with
  | None =>
      load_sysmon_events read_file XMLParser xml_path = Raise FileNotFoundError
  | Some document =>
      match XMLParser document with
      | None =>
          load_sysmon_events read_file XMLParser xml_path = Raise ParseError
      | Some root =>
          exists events,
            load_sysmon_events read_file XMLParser xml_path = Ok events /\
            events = filter is_event (flat_map iter (children root)) /\
            (forall e, In e events <-> below root e /\ tag e = ev_ "Event")
      end
  end.
Proof.
  unfold load_sysmon_events.
  destruct (read_file xml_path) as [document|]; [|reflexivity].
  destruct (XMLParser document) as [root|]; [|reflexivity].
  eexists. split; [reflexivity|]. split.
  - unfold findall_descendants. now rewrite iter_unfold.
  - intros e. apply findall_descendants_below.
Qed.

(** C9, as stated, fails on a document whose root element is itself an
    event: the document holds an event element of the namespace, and the
    loader returns no element. *)
Lemma root_event_not_loaded :
  load_sysmon_events (one_file lone_event_text)
                     (parses_to lone_event_text lone_event)
                     "data/sysmon_events.xml" = Ok [] /\
  filter is_event (iter lone_event) = [lone_event].
Proof. split; reflexivity. Qed.

(** * Further properties of the script *)

(** ** Extraction: when it fails and what it leaves absent *)

Section ExtractionFacts.

Lemma parse_event_system (ev : Element) :
  match find (ev_ "System") ev with
  | None => exists r, parse_event ev = Ok r
  | Some s =>
      match find (ev_ "EventID") s, find (ev_ "Computer") s with
      | Some _, Some _ => exists r, parse_event ev = Ok r
      | _, _ => parse_event ev = Raise AttributeError
      end
  end.
Proof.
  unfold parse_event.
  destruct (find (ev_ "System") ev) as [s|]; simpl; [|eauto].
  destruct (find (ev_ "EventID") s) as [i|]; simpl; [|reflexivity].
  destruct (find (ev_ "Computer") s) as [c|]; simpl; [eauto | reflexivity].
Qed.

Lemma parse_event_only_attribute_error (ev : Element) (e : exn) :
  parse_event ev = Raise e -> e = AttributeError.
Proof.
  intros He. pose proof (parse_event_system ev) as H.
  destruct (find (ev_ "System") ev) as [s|].
  - destruct (find (ev_ "EventID") s);
      [destruct (find (ev_ "Computer") s)|];
      [destruct H as [r Hr]| |]; congruence.
  - destruct H as [r Hr]. congruence.
Qed.

Lemma parse_event_describe (ev : Element) (r : EventRecord) :
  parse_event ev = Ok r -> description r = describe (event_id r).
Proof.
  intros H. rewrite describe_section6. now apply (parse_event_description ev).
Qed.

Lemma lookup_In (k v : string) (d : list (string * string)) :
  lookup k d = Some v -> In v (map snd d).
Proof.
  induction d as [|[k' v'] d IH]; simpl; [discriminate|].
  destruct (String.eqb k k'); [|auto].
  intros H. injection H as ->. now left.
Qed.

Lemma no_named_child (name : string) (ds : list Element) :
  (forall d, In d ds -> named name d = false) -> last_named_text name ds = None.
Proof.
  intros H. unfold last_named_text.
  replace (filter (named name) ds) with (@nil Element); [reflexivity|].
  symmetry. induction ds as [|d ds IH]; simpl; [reflexivity|].
  rewrite (H d (or_introl eq_refl)). apply IH. intros x Hx. apply H. now right.
Qed.

End ExtractionFacts.

(** X1. Extraction fails exactly on an event whose [System] child is
    there and lacks an [EventID] child or a [Computer] child; the failure is
    an [AttributeError], and every other event gives a record. *)
Theorem parse_event_raises_iff (ev : Element) :
  (parse_event ev = Raise AttributeError <->
   exists s, find (ev_ "System") ev = Some s /\
             (find (ev_ "EventID") s = None \/ find (ev_ "Computer") s = None))
  /\ ((exists r, parse_event ev = Ok r) \/ parse_event ev = Raise AttributeError).
Proof.
  pose proof (parse_event_system ev) as H.
  destruct (find (ev_ "System") ev) as [s|].
  - destruct (find (ev_ "EventID") s) as [i|] eqn:Hi;
      [destruct (find (ev_ "Computer") s) as [c|] eqn:Hc|].
    + split; [|now left]. destruct H as [r Hr]. rewrite Hr. split.
      * discriminate.
      * intros (s' & Hs & [Hn|Hn]); injection Hs as <-; congruence.
    + split; [|now right]. split; [|intros _; exact H].
      intros _. exists s. rewrite Hc. auto.
    + split; [|now right]. split; [|intros _; exact H].
      intros _. exists s. rewrite Hi. auto.
  - split; [|now left]. destruct H as [r Hr]. rewrite Hr. split.
    + discriminate.
    + intros (s & Hs & _). discriminate.
Qed.

(** X2. An event without a [System] child is extracted: its [event_id] and
    [computer] are absent and its description is the fallback phrase. *)
Theorem no_system_gives_fallback (ev : Element) :
  find (ev_ "System") ev = None ->
  exists r,
    parse_event ev = Ok r /\ event_id r = None /\ computer r = None /\
    description r = Some "Other Sysmon event".
Proof.
  intros H. unfold parse_event. rewrite H. simpl. eexists.
  repeat split; reflexivity.
Qed.

(** The theorem at the event without [System] child. *)
Lemma no_system_gives_fallback_witness :
  find (ev_ "System") anonymous_event = None /\
  exists r,
    parse_event anonymous_event = Ok r /\ event_id r = None /\
    computer r = None /\ description r = Some "Other Sysmon event".
Proof.
  split; [reflexivity|]. apply (no_system_gives_fallback anonymous_event).
  reflexivity.
Defined.

(** X3. A field read from the [Data] children is absent as soon as no
    [Data] child of [EventData] carries its name, in particular when there is
    no [EventData] child at all; children with other names, or without a
    [Name], never reach a record. *)
Theorem unnamed_fields_absent (ev : Element) (r : EventRecord) :
  parse_event ev = Ok r ->
  ((forall data d, find (ev_ "EventData") ev = Some data ->
                   In d (findall (ev_ "Data") data) -> named "UtcTime" d = false)
   -> utc_time r = None) /\
  ((forall data d, find (ev_ "EventData") ev = Some data ->
                   In d (findall (ev_ "Data") data) -> named "Image" d = false)
   -> image r = None) /\
  ((forall data d, find (ev_ "EventData") ev = Some data ->
                   In d (findall (ev_ "Data") data) -> named "ProcessId" d = false)
   -> process_id r = None).
Proof.
  intros Hr. pose proof (parse_event_data ev r Hr) as Hf. simpl in Hf.
  destruct (find (ev_ "EventData") ev) as [data|].
  - rewrite data_loop in Hf. simpl in Hf. destruct Hf as (Hu & Hi & Hp).
    rewrite Hu, Hi, Hp.
    repeat split; intros H; apply no_named_child; intros d Hd;
      exact (H data d eq_refl Hd).
  - destruct Hf as (Hu & Hi & Hp). rewrite Hu, Hi, Hp. repeat split; reflexivity.
Qed.

(** The theorem at the event that repeats [UtcTime] and [Image] and has no
    [ProcessId]. *)
Lemma unnamed_fields_absent_witness :
  parse_event repeated_event
  = Ok (mkRecord (Some "1") (Some "Process created (a program started)")
                 (Some "2024-01-02T00:00:00Z") None None (Some "HOST1")) /\
  process_id (mkRecord (Some "1") (Some "Process created (a program started)")
                       (Some "2024-01-02T00:00:00Z") None None (Some "HOST1"))
  = None.
Proof.
  split; [reflexivity|].
  apply (unnamed_fields_absent repeated_event _ eq_refl).
  intros data d Hdata Hd. injection Hdata as <-. simpl in Hd.
  repeat (destruct Hd as [<-|Hd]; [reflexivity|]). destruct Hd.
Defined.

(** X4. An extracted record always has a description, and the description
    is the fallback phrase exactly when the code is absent or not in the
    table: no listed code is described by the fallback phrase. *)
Theorem fallback_marks_unknown_codes (ev : Element) (r : EventRecord) :
  parse_event ev = Ok r ->
  exists d,
    description r = Some d /\
    (d = "Other Sysmon event" <-> unknown_code (event_id r)).
Proof.
  intros H. apply parse_event_describe in H. rewrite H.
  unfold describe, dict_get, unknown_code.
  destruct (event_id r) as [c|]; [|exists "Other Sysmon event"; tauto].
  destruct (lookup c EVENT_DESCRIPTIONS) as [v|] eqn:Hl.
  - exists v. split; [reflexivity|]. split; [|discriminate].
    intros ->. apply lookup_In in Hl. simpl in Hl.
    repeat (destruct Hl as [Hl|Hl]; [discriminate|]). destruct Hl.
  - exists "Other Sysmon event". tauto.
Qed.

(** The theorem at the event of the round trip, whose code is listed. *)
Lemma fallback_marks_unknown_codes_witness :
  parse_event cmd_event = Ok cmd_record /\
  exists d,
    description cmd_record = Some d /\
    (d = "Other Sysmon event" <-> unknown_code (event_id cmd_record)).
Proof.
  split; [reflexivity|].
  apply (fallback_marks_unknown_codes cmd_event cmd_record). reflexivity.
Defined.

Lemma comprehension_cases (events : list Element) :
  match comprehension parse_event events with
  | Ok parsed => Forall2 (fun ev r => parse_event ev = Ok r) events parsed
  | Raise e =>
      e = AttributeError /\
      Exists (fun ev => parse_event ev = Raise AttributeError) events
  end.
Proof.
  induction events as [|ev events IH]; simpl; [constructor|].
  destruct (parse_event ev) as [r|e] eqn:Hr; simpl.
  - destruct (comprehension parse_event events) as [parsed|e']; simpl.
    + now constructor.
    + destruct IH as [-> IH]. split; [reflexivity|]. now apply Exists_cons_tl.
  - pose proof (parse_event_only_attribute_error ev e Hr) as ->.
    split; [reflexivity|]. now apply Exists_cons_hd.
Qed.

(** X5. The comprehension over the events gives one record per event, in
    the order of the events; it raises, and then an [AttributeError], exactly
    when extraction fails on one of them. *)
Theorem comprehension_parse_event (events : list Element) :
  match comprehension parse_event events with
  | Ok parsed => Forall2 (fun ev r => parse_event ev = Ok r) events parsed
  | Raise e =>
      e = AttributeError /\
      Exists (fun ev => parse_event ev = Raise AttributeError) events
  end.
Proof. exact (comprehension_cases events). Qed.

(** ** The filter on a frame with rows *)

(** X6. On a non-empty sequence of records the filter returns the records
    that match the pattern, in their original order; each of them is one of
    the records and has an image. *)
Theorem interesting_selects (parsed : list EventRecord) :
  parsed <> [] ->
  exists selected,
    interesting (DataFrame_of parsed) = Ok selected /\
    selected = filter matches_pattern parsed /\
    (forall r, In r selected ->
               In r parsed /\ exists path, image r = Some path).
Proof.
  destruct parsed as [|r0 rs]; [congruence|]. intros _.
  eexists. split; [apply interesting_rows|]. split; [reflexivity|].
  intros r Hr. apply filter_In in Hr. destruct Hr as [Hin Hm].
  split; [exact Hin|]. unfold matches_pattern in Hm.
  destruct (image r) as [path|]; [eauto | discriminate].
Qed.

(** The theorem at three records, two of which are kept. *)
Lemma interesting_selects_witness :
  [anonymous_record; cmd_record; log_file_record] <> [] /\
  exists selected,
    interesting (DataFrame_of [anonymous_record; cmd_record; log_file_record])
    = Ok selected /\
    selected
    = filter matches_pattern [anonymous_record; cmd_record; log_file_record] /\
    (forall r, In r selected ->
               In r [anonymous_record; cmd_record; log_file_record] /\
               exists path, image r = Some path).
Proof.
  split; [discriminate|]. apply interesting_selects. discriminate.
Defined.

(** X7. The filter misses no named image: a record whose lower-cased image
    contains one of the six names as a substring is among the selected
    records. *)
Theorem literal_names_selected (parsed : list EventRecord) (r : EventRecord) :
  In r parsed ->
  names_suspicious_image r = true ->
  exists selected,
    interesting (DataFrame_of parsed) = Ok selected /\ In r selected.
Proof.
  intros Hin Hname. destruct parsed as [|r0 rs]; [destruct Hin|].
  eexists. split; [apply interesting_rows|].
  apply filter_In. split; [exact Hin|]. now apply literal_name_matches.
Qed.

(** The theorem at the record of the round trip. *)
Lemma literal_names_selected_witness :
  In cmd_record [anonymous_record; cmd_record] /\
  names_suspicious_image cmd_record = true /\
  exists selected,
    interesting (DataFrame_of [anonymous_record; cmd_record]) = Ok selected /\
    In cmd_record selected.
Proof.
  split; [right; left; reflexivity|]. split; [reflexivity|].
  apply (literal_names_selected [anonymous_record; cmd_record] cmd_record).
  - right; left; reflexivity.
  - reflexivity.
Defined.

(** ** The count table, entry by entry *)

Section Entries.

Lemma key_eqb_eq (a b : key) : key_eqb a b = true <-> a = b.
Proof.
  destruct a as [a1 a2], b as [b1 b2]. unfold key_eqb. simpl.
  rewrite andb_true_iff, !String.eqb_eq. split.
  - intros [-> ->]. reflexivity.
  - intros H. injection H as -> ->. auto.
Qed.

Lemma key_eqb_refl (a : key) : key_eqb a a = true.
Proof. now apply key_eqb_eq. Qed.

Lemma count_for_bump (k k' : key) (g : list EventTypeCount) :
  count_for k' (bump k g) = count_for k' g + (if key_eqb k k' then 1 else 0).
Proof.
  unfold count_for. induction g as [|e g IH]; simpl.
  - change (key_of (mkCount (fst k) (snd k) 1)) with (fst k, snd k).
    replace (fst k, snd k) with k by now destruct k.
    destruct (key_eqb k k'); reflexivity.
  - destruct (key_compare k (key_of e)) eqn:Hc.
    + apply key_compare_eq in Hc. subst k. simpl.
      change (key_of (mkCount (c_event_id e) (c_description e) (S (count e))))
        with (key_of e).
      destruct (key_eqb (key_of e) k'); simpl; lia.
    + simpl.
      change (key_of (mkCount (fst k) (snd k) 1)) with (fst k, snd k).
      replace (fst k, snd k) with k by now destruct k.
      destruct (key_eqb k k'), (key_eqb (key_of e) k'); simpl; lia.
    + simpl. destruct (key_eqb (key_of e) k'); simpl; rewrite IH; lia.
Qed.

Lemma count_for_groups (k : key) (rs : list EventRecord) :
  forall g,
    count_for k (fold_left add_row rs g) = count_for k g + members k rs.
Proof.
  unfold members. induction rs as [|r rs IH]; intros g; simpl; [lia|].
  rewrite IH. unfold add_row.
  destruct (group_key r) as [kr|]; [|lia].
  rewrite count_for_bump. destruct (key_eqb kr k); simpl; lia.
Qed.

Lemma count_for_Permutation (k : key) (l l' : list EventTypeCount) :
  Permutation l l' -> count_for k l = count_for k l'.
Proof.
  unfold count_for. induction 1 as [|x l l' _ IH|x y l|l l' l'' _ IH1 _ IH2];
    simpl.
  - reflexivity.
  - destruct (key_eqb (key_of x) k); simpl; lia.
  - destruct (key_eqb (key_of x) k), (key_eqb (key_of y) k); simpl; lia.
  - lia.
Qed.

Lemma count_for_absent (k : key) (l : list EventTypeCount) :
  ~ In k (map key_of l) -> count_for k l = 0.
Proof.
  unfold count_for. induction l as [|e l IH]; simpl; [reflexivity|].
  intros Hn. destruct (key_eqb (key_of e) k) eqn:He.
  - apply key_eqb_eq in He. tauto.
  - apply IH. tauto.
Qed.

(** In a table without repeated keys an entry holds all the counts of its
    key. *)
Lemma count_for_entry (e : EventTypeCount) (l : list EventTypeCount) :
  NoDup (map key_of l) -> In e l -> count_for (key_of e) l = count e.
Proof.
  induction l as [|x l IH]; simpl; intros Hnd Hin; [destruct Hin|].
  inversion Hnd as [|k ks Hx Hnd']; subst.
  destruct Hin as [->|Hin].
  - unfold count_for in *. simpl. rewrite key_eqb_refl. simpl.
    pose proof (count_for_absent _ _ Hx) as H0. unfold count_for in H0.
    rewrite H0. lia.
  - unfold count_for in *. simpl.
    destruct (key_eqb (key_of x) (key_of e)) eqn:He.
    + apply key_eqb_eq in He. exfalso. apply Hx. rewrite He.
      now apply in_map.
    + now apply IH.
Qed.

Lemma members_positive (k : key) (rs : list EventRecord) (r : EventRecord) :
  In r rs -> group_key r = Some k -> 1 <= members k rs.
Proof.
  unfold members. induction rs as [|x rs IH]; simpl; intros Hin Hk;
    [destruct Hin|].
  destruct Hin as [->|Hin].
  - rewrite Hk, key_eqb_refl. simpl. lia.
  - destruct (match group_key x with
              | Some k' => key_eqb k' k
              | None => false
              end); simpl; [lia | auto].
Qed.

Lemma event_ids_NoDup (f : string -> string) (l : list EventTypeCount) :
  (forall e, In e l -> c_description e = f (c_event_id e)) ->
  NoDup (map key_of l) -> NoDup (map c_event_id l).
Proof.
  induction l as [|x l IH]; simpl; intros Hf Hnd; [constructor|].
  inversion Hnd as [|k ks Hx Hnd']; subst. constructor; [|auto].
  intros Hin. apply Hx. apply in_map_iff in Hin.
  destruct Hin as (y & Hy & Hin). apply in_map_iff. exists y.
  split; [|exact Hin]. unfold key_of.
  rewrite Hy, (Hf y (or_intror Hin)), (Hf x (or_introl eq_refl)), Hy.
  reflexivity.
Qed.

End Entries.

(** X8. In the count table of a non-empty sequence of records every entry
    counts the records that carry its key: the count is the number of such
    records, and it is at least one. *)
Theorem counts_entries
        (sort_values : list EventTypeCount -> list EventTypeCount)
        (parsed : list EventRecord) :
  (forall l, Permutation (sort_values l) l) ->
  parsed <> [] ->
  exists cs,
    counts sort_values (DataFrame_of parsed) = Ok cs /\
    forall e, In e cs ->
              count e = members (key_of e) parsed /\ 1 <= count e.
Proof.
  intros Hperm Hne. eexists. split; [now apply counts_rows|].
  intros e He.
  set (groups := fold_left add_row parsed []) in *.
  assert (Hasc : NoDup (map key_of groups)).
  { apply ascending_NoDup, ascending_groups. constructor. }
  assert (Hnd : NoDup (map key_of (sort_values groups))).
  { apply (Permutation_NoDup (l := map key_of groups)); [|exact Hasc].
    apply Permutation_map. symmetry. apply Hperm. }
  assert (Hc : count e = members (key_of e) parsed).
  { rewrite <- (count_for_entry e _ Hnd He).
    rewrite (count_for_Permutation _ _ _ (Hperm groups)).
    unfold groups. rewrite count_for_groups. reflexivity. }
  split; [exact Hc|]. rewrite Hc.
  assert (Hk : In (key_of e) (map key_of groups)).
  { apply (Permutation_in _ (Permutation_map key_of (Hperm groups))).
    now apply in_map. }
  apply keys_groups in Hk. destruct Hk as [[]|(r & Hr & Hk)].
  exact (members_positive _ _ r Hr Hk).
Qed.

(** The theorem at four records and the insertion sort. *)
Lemma counts_entries_witness :
  (forall l, Permutation (insertion_sort l) l) /\
  [cmd_record; anonymous_record; log_file_record; cmd_record] <> [] /\
  exists cs,
    counts insertion_sort
      (DataFrame_of [cmd_record; anonymous_record; log_file_record; cmd_record])
    = Ok cs /\
    forall e, In e cs ->
      count e
      = members (key_of e)
          [cmd_record; anonymous_record; log_file_record; cmd_record] /\
      1 <= count e.
Proof.
  split; [exact (fun l => proj1 (insertion_sort_sorts l))|].
  split; [discriminate|].
  apply (counts_entries insertion_sort).
  - exact (fun l => proj1 (insertion_sort_sorts l)).
  - discriminate.
Defined.

(** X9. On extracted records the description follows from the code, so
    the count table has one row per event code: no [event_id] occurs twice,
    and each row carries the phrase of its code. *)
Theorem counts_one_row_per_event_id
        (sort_values : list EventTypeCount -> list EventTypeCount)
        (events : list Element) (parsed : list EventRecord) :
  (forall l, Permutation (sort_values l) l) ->
  comprehension parse_event events = Ok parsed ->
  parsed <> [] ->
  exists cs,
    counts sort_values (DataFrame_of parsed) = Ok cs /\
    NoDup (map c_event_id cs) /\
    (forall e, In e cs -> describe (Some (c_event_id e)) = Some (c_description e)).
Proof.
  intros Hperm Hparsed Hne. eexists. split; [now apply counts_rows|].
  set (groups := fold_left add_row parsed []) in *.
  assert (Hdesc : forall e, In e (sort_values groups) ->
                            c_description e = section6 (Some (c_event_id e))).
  { intros e He.
    assert (Hk : In (key_of e) (map key_of groups)).
    { apply (Permutation_in _ (Permutation_map key_of (Hperm groups))).
      now apply in_map. }
    apply keys_groups in Hk. destruct Hk as [[]|(r & Hr & Hk)].
    apply group_key_pair in Hk. destruct Hk as [Hi Hd].
    apply comprehension_Forall in Hparsed. rewrite Forall_forall in Hparsed.
    destruct (Hparsed r Hr) as (ev & Hev).
    apply parse_event_description in Hev. rewrite Hi in Hev. congruence. }
  split.
  - apply (event_ids_NoDup (fun i => section6 (Some i))); [exact Hdesc|].
    apply (Permutation_NoDup (l := map key_of groups)).
    + apply Permutation_map. symmetry. apply Hperm.
    + apply ascending_NoDup, ascending_groups. constructor.
  - intros e He. rewrite describe_section6, (Hdesc e He). reflexivity.
Qed.

(** The theorem at three extracted records. *)
Lemma counts_one_row_per_event_id_witness :
  (forall l, Permutation (insertion_sort l) l) /\
  comprehension parse_event [cmd_event; anonymous_event; cmd_event]
  = Ok [cmd_record; anonymous_record; cmd_record] /\
  [cmd_record; anonymous_record; cmd_record] <> [] /\
  exists cs,
    counts insertion_sort
           (DataFrame_of [cmd_record; anonymous_record; cmd_record]) = Ok cs /\
    NoDup (map c_event_id cs) /\
    (forall e, In e cs -> describe (Some (c_event_id e)) = Some (c_description e)).
Proof.
  split; [exact (fun l => proj1 (insertion_sort_sorts l))|].
  split; [reflexivity|]. split; [discriminate|].
  apply (counts_one_row_per_event_id insertion_sort
           [cmd_event; anonymous_event; cmd_event]).
  - exact (fun l => proj1 (insertion_sort_sorts l)).
  - reflexivity.
  - discriminate.
Defined.

(** ** Loading a flat log *)

Section FlatLog.

Lemma flat_event_iter (c : Element) :
  flat_event c -> filter is_event (iter c) = [c].
Proof.
  intros [Hc Hbelow]. rewrite iter_unfold. cbn [filter]. rewrite Hc. f_equal.
  assert (H : forall x, In x (flat_map iter (children c)) -> is_event x = false).
  { intros x Hx. apply Hbelow. apply in_flat_map in Hx.
    destruct Hx as (k & Hk & Hx). apply below_children. exists k.
    split; [exact Hk|]. now apply in_iter. }
  revert H. generalize (flat_map iter (children c)).
  induction l as [|x l IH]; simpl; intros H; [reflexivity|].
  rewrite (H x (or_introl eq_refl)). apply IH. intros y Hy. apply H. now right.
Qed.

Lemma flat_eventb_flat (c : Element) : flat_eventb c = true -> flat_event c.
Proof.
  unfold flat_eventb, flat_event. rewrite andb_true_iff, forallb_forall.
  intros [Hc Hall]. split; [exact Hc|]. intros x Hx.
  apply negb_true_iff, Hall. rewrite iter_unfold. simpl.
  apply below_children in Hx. destruct Hx as (k & Hk & Hx).
  apply in_flat_map. exists k. split; [exact Hk|]. now apply in_iter.
Qed.

End FlatLog.

(** X10. When every child of the root is an event element with no event
    element below it, the loader returns exactly the children of the root, in
    their order. *)
Theorem flat_log_loads
        (read_file : string -> option string)
        (XMLParser : string -> option Element)
        (xml_path document : string) (root : Element) :
  read_file xml_path = Some document ->
  XMLParser document = Some root ->
  Forall flat_event (children root) ->
  load_sysmon_events read_file XMLParser xml_path = Ok (children root).
Proof.
  intros Hfile Hdoc Hflat. unfold load_sysmon_events. rewrite Hfile, Hdoc.
  f_equal. unfold findall_descendants. rewrite iter_unfold. simpl.
  fold is_event. induction Hflat as [|c cs Hc Hcs IH]; simpl; [reflexivity|].
  rewrite filter_app, (flat_event_iter c Hc), IH. reflexivity.
Qed.

(** The theorem at a log of two events. *)
Lemma flat_log_loads_witness :
  one_file two_event_log_text "data/sysmon_events.xml"
  = Some two_event_log_text /\
  parses_to two_event_log_text two_event_log two_event_log_text
  = Some two_event_log /\
  Forall flat_event (children two_event_log) /\
  load_sysmon_events (one_file two_event_log_text)
    (parses_to two_event_log_text two_event_log) "data/sysmon_events.xml"
  = Ok (children two_event_log).
Proof.
  assert (H : Forall flat_event (children two_event_log)).
  { repeat constructor; apply flat_eventb_flat; reflexivity. }
  split; [reflexivity|]. split; [reflexivity|]. split; [exact H|].
  apply (flat_log_loads _ _ _ two_event_log_text);
    [reflexivity | reflexivity | exact H].
Defined.


(** ** The whole run *)

(** X11. One event on which extraction fails aborts the analysis of all of
    them: whatever the other events are, the analysis raises
    [AttributeError], and no table, selection or report comes out for the
    events that could be extracted. *)
Theorem analyse_aborts_on_bad_event
        (sort_values : list EventTypeCount -> list EventTypeCount)
        (to_string : list EventTypeCount -> string) (events : list Element) :
  Exists (fun ev => parse_event ev = Raise AttributeError) events ->
  analyse sort_values to_string events = Raise AttributeError.
Proof.
  intros Hbad. unfold analyse.
  assert (H : comprehension parse_event events = Raise AttributeError).
  { induction Hbad as [ev events Hev|ev events Hbad IH]; simpl.
    - now rewrite Hev.
    - destruct (parse_event ev) as [r|e] eqn:Hr; simpl.
      + now rewrite IH.
      + now rewrite (parse_event_only_attribute_error ev e Hr). }
  now rewrite H.
Qed.

(** The theorem at a good event followed by one without [EventID]. *)
Lemma analyse_aborts_on_bad_event_witness :
  Exists (fun ev => parse_event ev = Raise AttributeError)
         [cmd_event; event_without_id; anonymous_event] /\
  analyse insertion_sort (fun _ => EmptyString)
          [cmd_event; event_without_id; anonymous_event]
  = Raise AttributeError.
Proof.
  assert (H : Exists (fun ev => parse_event ev = Raise AttributeError)
                     [cmd_event; event_without_id; anonymous_event]).
  { apply Exists_cons_tl, Exists_cons_hd. reflexivity. }
  split; [exact H|].
  exact (analyse_aborts_on_bad_event insertion_sort (fun _ => EmptyString) _ H).
Defined.

(** X13. The sentence does not show the event code, and it cannot tell an
    absent value from the text [None]: changing the [event_id], or writing
    [None] out in every absent field, leaves the sentence as it is. *)
Theorem to_sentence_blind_spots (r : EventRecord) (code : option string) :
  to_sentence
    (mkRecord code (spelled_out (description r)) (spelled_out (utc_time r))
              (spelled_out (image r)) (spelled_out (process_id r))
              (spelled_out (computer r)))
  = to_sentence r.
Proof.
  unfold to_sentence.
  change (row_get r "utc_time") with (utc_time r).
  change (row_get r "computer") with (computer r).
  change (row_get r "description") with (description r).
  change (row_get r "image") with (image r).
  change (row_get r "process_id") with (process_id r).
  cbn [row_get String.eqb Ascii.eqb Bool.eqb event_id description utc_time
       image process_id computer].
  destruct (utc_time r), (computer r), (description r), (image r),
    (process_id r); reflexivity.
Qed.

(** ** The count table and the order of the records *)

Ltac key_norm :=
  unfold key_of in *;
  cbn [bump c_event_id c_description count fst snd] in *;
  fold key_of in *.

Ltac key_facts :=
  repeat match goal with
         | H : key_compare ?a ?b = Eq |- _ =>
             apply key_compare_eq in H; injection H as ? ?; subst
         | H : key_compare ?a ?b = Gt |- _ => apply key_compare_gt in H
         | H : key_compare ?a ?b = Lt |- _ => change (key_lt a b) in H
         end.

Ltac key_contra :=
  exfalso;
  match goal with
  | H : key_lt ?a ?a |- _ => exact (key_lt_irrefl a H)
  | H1 : key_lt ?a ?b, H2 : key_lt ?b ?a |- _ =>
      exact (key_lt_irrefl a (key_lt_trans a b a H1 H2))
  | H1 : key_lt ?a ?b, H2 : key_lt ?b ?c, H3 : key_lt ?c ?a |- _ =>
      exact (key_lt_irrefl a
               (key_lt_trans a c a (key_lt_trans a b c H1 H2) H3))
  end.

Ltac key_cases :=
  repeat match goal with
         | H : key_compare ?a ?b = _ |- context [key_compare ?a ?b] =>
             rewrite H; key_norm
         | |- context [key_compare ?a ?b] =>
             destruct (key_compare a b) eqn:?; key_norm
         end.

Section OrderOfRecords.

(** Two members may join their groups in either order. *)
Lemma bump_comm (k1 k2 : key) (g : list EventTypeCount) :
  bump k1 (bump k2 g) = bump k2 (bump k1 g).
Proof.
  destruct k1 as [a1 b1], k2 as [a2 b2].
  induction g as [|[i d n] g IH]; key_norm;
    key_cases; key_facts;
    solve [ reflexivity | now rewrite IH | key_contra ].
Qed.

Lemma add_row_comm (r1 r2 : EventRecord) (g : list EventTypeCount) :
  add_row (add_row g r1) r2 = add_row (add_row g r2) r1.
Proof.
  unfold add_row. destruct (group_key r1), (group_key r2); try reflexivity.
  apply bump_comm.
Qed.

Lemma groups_Permutation (rs rs' : list EventRecord) :
  Permutation rs rs' ->
  forall g, fold_left add_row rs g = fold_left add_row rs' g.
Proof.
  induction 1 as [|x l l' _ IH|x y l|l l' l'' _ IH1 _ IH2]; intros g; simpl.
  - reflexivity.
  - apply IH.
  - now rewrite add_row_comm.
  - now rewrite IH1.
Qed.

End OrderOfRecords.

(** X14. The count table does not depend on the order of the records:
    two sequences with the same records give the same table, and fail
    alike when they are empty. *)
Theorem counts_order_independent
        (sort_values : list EventTypeCount -> list EventTypeCount)
        (parsed parsed' : list EventRecord) :
  Permutation parsed parsed' ->
  counts sort_values (DataFrame_of parsed)
  = counts sort_values (DataFrame_of parsed').
Proof.
  intros Hp. destruct parsed as [|r rs].
  - apply Permutation_nil in Hp. subst. reflexivity.
  - destruct parsed' as [|r' rs'].
    + apply Permutation_sym, Permutation_nil in Hp. discriminate.
    + rewrite !counts_rows by discriminate.
      now rewrite (groups_Permutation _ _ Hp).
Qed.

(** The theorem at three records and their reversal. *)
Lemma counts_order_independent_witness :
  Permutation [cmd_record; log_file_record; anonymous_record]
              [anonymous_record; log_file_record; cmd_record] /\
  counts insertion_sort
         (DataFrame_of [cmd_record; log_file_record; anonymous_record])
  = counts insertion_sort
           (DataFrame_of [anonymous_record; log_file_record; cmd_record]).
Proof.
  assert (H : Permutation [cmd_record; log_file_record; anonymous_record]
                          [anonymous_record; log_file_record; cmd_record]).
  { apply (Permutation_rev [cmd_record; log_file_record; anonymous_record]). }
  split; [exact H|].
  apply (counts_order_independent insertion_sort _ _ H).
Defined.
